(** * Article recommender: a shallow embedding of [main.py]

    The script is a three-stage pipeline (collect the reading history,
    ask a chat model for recommendations, print them) run once by [main].
    The stages share one [ArticleState] object; here it is threaded
    explicitly.  Everything the script does to the outside is recorded:
    the arguments of [console.print], the prompts of [Prompt.ask] and the
    requests sent to the chat endpoint form one chronological [trace]. *)

From stdpp Require Import gmap strings list relations.
From Stdlib Require Import Ascii String DecimalString.

(** ** The Python primitives the script relies on *)

Module Py.

(** ["\n"] *)
Definition nl : string := String (ascii_of_nat 10) EmptyString.

(** [str.lower], on the UTF-8 bytes of the text: the letters [A]-[Z]
    move to [a]-[z], every other byte stays.  Python lowers non-ASCII
    letters as well, but none of them lowers to one of the letters
    [d], [o], [n], [e], so the test [s.lower() == "done"] is the same on
    both readings. *)
Definition lower_char (c : ascii) : ascii :=
  let n := nat_of_ascii c in
  if (65 <=? n) && (n <=? 90) then ascii_of_nat (n + 32) else c.

Fixpoint lower (s : string) : string :=
  match s with
  | EmptyString => EmptyString
  | String c s' => String (lower_char c) (lower s')
  end.

(** [s.split(sep)] for a non-empty [sep]: the text is scanned from the
    left, every occurrence of [sep] found closes the current piece and
    the scan resumes after it.  [skip] counts the characters of a
    separator just matched that are still to be passed over. *)
Definition push_char (c : ascii) (pieces : list string) : list string :=
  match pieces with
  | piece :: more => String c piece :: more
  | [] => [String c EmptyString]
  end.

Fixpoint split_go (sep : string) (skip : nat) (s : string) : list string :=
  match s with
  | EmptyString => [EmptyString]
  | String c s' =>
      match skip with
      | S k => split_go sep k s'
      | O =>
          if String.prefix sep s
          then EmptyString :: split_go sep (String.length sep - 1) s'
          else push_char c (split_go sep 0 s')
      end
  end.

Definition split (sep s : string) : list string := split_go sep 0 s.

(** [sep.join(pieces)] *)
Definition join (sep : string) (pieces : list string) : string :=
  String.concat sep pieces.

(** [str(i)] of a non-negative [int], as the f-string [{i}] renders it *)
Definition str_of_int (i : nat) : string :=
  NilZero.string_of_uint (Nat.to_uint i).

(** Truth value of what [os.getenv] returns: [None] and the empty
    string are false. *)
Definition truthy (v : option string) : bool :=
  match v with
  | None => false
  | Some EmptyString => false
  | Some (String _ _) => true
  end.

End Py.

(** ** Exceptions, outcomes and the outside world *)

(** [except Exception] tells two kinds of exception apart: the instances
    of [Exception], carrying the text [str(e)], and those that derive from
    [BaseException] only; [KeyboardInterrupt], raised when the user
    interrupts a blocking call, is the one that arises here. *)
Inductive exn : Type :=
| Exception (msg : string)
| KeyboardInterrupt.

(** [input()] at the end of the input stream *)
Definition EOFError : exn := Exception "EOF when reading a line".

Inductive outcome (A : Type) : Type :=
| Ok (a : A)
| Raise (e : exn)
| Diverge.
Arguments Ok {A} a.
Arguments Raise {A} e.
Arguments Diverge {A}.

(** What one call of [Prompt.ask] meets on the keyboard: a line of text,
    or an interrupt.  An exhausted list is the end of the input stream. *)
Inductive input_event : Type :=
| Line (text : string)
| CtrlC.

(** A chat-completion request: the model name and the (role, content)
    messages. *)
Record request : Type := {
  model : string;
  messages : list (string * string)
}.

Inductive event : Type :=
| EvPrint (text : string)
| EvAsk (prompt : string)
| EvRequest (req : request).

Record world : Type := {
  environ : gmap string string;
  stdin : list input_event;
  endpoint : request -> string + exn;
  trace : list event
}.

Definition log (e : event) (w : world) : world :=
  {| environ := environ w; stdin := stdin w; endpoint := endpoint w;
     trace := trace w ++ [e] |}.

Definition set_stdin (pending : list input_event) (w : world) : world :=
  {| environ := environ w; stdin := pending; endpoint := endpoint w;
     trace := trace w |}.

(** The world after some more events. *)
Definition emit (evs : list event) (w : world) : world :=
  {| environ := environ w; stdin := stdin w; endpoint := endpoint w;
     trace := trace w ++ evs |}.

(** The number of requests among some events. *)
Fixpoint requests (evs : list event) : nat :=
  match evs with
  | [] => 0
  | EvRequest _ :: evs' => S (requests evs')
  | _ :: evs' => requests evs'
  end.

(** Computations: state passing over the world, with exceptions. *)
Definition M (A : Type) : Type := world -> outcome A * world.

Definition ret {A} (a : A) : M A := fun w => (Ok a, w).

Definition raise {A} (e : exn) : M A := fun w => (Raise e, w).

Definition diverge {A} : M A := fun w => (Diverge, w).

Definition bind {A B} (m : M A) (k : A -> M B) : M B :=
  fun w =>
    match m w with
    | (Ok a, w') => k a w'
    | (Raise e, w') => (Raise e, w')
    | (Diverge, w') => (Diverge, w')
    end.

Notation "x <- m ;; k" := (bind m (fun x => k))
  (at level 100, m at next level, right associativity).
Notation "m ;; k" := (bind m (fun _ => k))
  (at level 100, right associativity).

(** [try: body  except Exception as e: handler(str(e))] *)
Definition try_except {A} (body : M A) (handler : string -> M A) : M A :=
  fun w =>
    match body w with
    | (Raise (Exception msg), w') => handler msg w'
    | r => r
    end.

(** [console.print(text)]: the call is recorded with its argument; how the
    console renders the markup tags in it is not part of the model. *)
Definition console_print (text : string) : M unit :=
  fun w => (Ok tt, log (EvPrint text) w).

(** [Prompt.ask(prompt)]: the value it returns for the line typed. *)
Definition Prompt_ask (prompt : string) : M string :=
  fun w =>
    let w' := log (EvAsk prompt) w in
    match stdin w with
    | [] => (Raise EOFError, w')
    | Line text :: pending => (Ok text, set_stdin pending w')
    | CtrlC :: pending => (Raise KeyboardInterrupt, set_stdin pending w')
    end.

(** [os.getenv(name)], on the environment as [load_dotenv()] left it *)
Definition os_getenv (name : string) : M (option string) :=
  fun w => (Ok (environ w !! name), w).

(** One blocking request to the endpoint, answered by a completion text or
    by an exception. *)
Definition complete (req : request) : M string :=
  fun w =>
    match endpoint w req with
    | inl text => (Ok text, log (EvRequest req) w)
    | inr e => (Raise e, log (EvRequest req) w)
    end.

(** [for i, x in enumerate(xs, start): body(i, x)] *)
Fixpoint for_enumerate {A} (start : nat) (xs : list A)
    (body : nat -> A -> M unit) : M unit :=
  match xs with
  | [] => ret tt
  | x :: xs' => body start x ;; for_enumerate (S start) xs' body
  end.

(** ** The session state *)

Record ArticleState : Type := {
  read_articles : list string;
  recommendations : list string
}.

(** [ArticleState()] *)
Definition ArticleState_new : ArticleState :=
  {| read_articles := []; recommendations := [] |}.

(** [state.read_articles.append(article)] *)
Definition append_article (state : ArticleState) (article : string)
    : ArticleState :=
  {| read_articles := read_articles state ++ [article];
     recommendations := recommendations state |}.

(** [state.recommendations = recs] *)
Definition set_recommendations (state : ArticleState) (recs : list string)
    : ArticleState :=
  {| read_articles := read_articles state; recommendations := recs |}.

(** ** collect_history *)

Definition collect_banner : string :=
  "[bold blue]読んだ技術記事の情報を入力してください（終了するには 'done' と入力）[/bold blue]".

Definition ask_prompt : string := "記事のタイトルと内容の要約".

(** The world after one more prompt of the loop. *)
Definition asked (w : world) : world := log (EvAsk ask_prompt) w.

(** The [while True] loop.  [fuel] bounds the number of iterations; each
    one consumes an input event, so one more than the number of pending
    events is never used up (see [collect_loop_fuel]). *)
Fixpoint collect_loop (fuel : nat) (state : ArticleState) : M ArticleState :=
  match fuel with
  | O => diverge
  | S fuel' =>
      article <- Prompt_ask ask_prompt ;;
      if String.eqb (Py.lower article) "done" then ret state
      else collect_loop fuel' (append_article state article)
  end.

Definition collect_history (state : ArticleState) : M ArticleState :=
  console_print collect_banner ;;
  fun w => collect_loop (S (List.length (stdin w))) state w.

(** One iteration of the loop that records an article and goes round
    again, as a relation between the configurations at the loop head. *)
Inductive collect_step : ArticleState * world -> ArticleState * world -> Prop :=
| collect_step_record state w article pending :
    stdin w = Line article :: pending ->
    Py.lower article <> "done" ->
    collect_step (state, w)
      (append_article state article, set_stdin pending (log (EvAsk ask_prompt) w)).

(** ** generate_recommendations *)

Definition system_prompt : string :=
  "あなたは技術記事の推薦エキスパートです。" +:+ Py.nl +:+
  "        ユーザーがこれまで読んだ技術記事の情報を基に、関連性の高い新しい技術記事を推薦してください。" +:+ Py.nl +:+
  "        推薦する際は以下の点を考慮してください：" +:+ Py.nl +:+
  "        1. ユーザーの興味分野との関連性" +:+ Py.nl +:+
  "        2. 最新の技術トレンド" +:+ Py.nl +:+
  "        3. 学習の連続性" +:+ Py.nl +:+
  "        4. 記事の質と信頼性" +:+ Py.nl +:+
  "        " +:+ Py.nl +:+
  "        推薦記事は以下の形式で出力してください：" +:+ Py.nl +:+
  "        - タイトル" +:+ Py.nl +:+
  "        - 推薦理由" +:+ Py.nl +:+
  "        - 想定される学習効果".

Definition user_prompt (history : string) : string :=
  "読んだ記事の履歴：" +:+ Py.nl +:+ history +:+ Py.nl +:+ Py.nl +:+
  "これらの記事を基に、おすすめの技術記事を3つ提案してください。".

(** The request the chain sends for a state: the history is the recorded
    articles joined by newlines, substituted into the user message. *)
Definition chain_request (state : ArticleState) : request :=
  let history := Py.join Py.nl (read_articles state) in
  {| model := "gpt-3.5-turbo";
     messages := [("system", system_prompt); ("user", user_prompt history)] |}.

Definition chain_invoke (state : ArticleState) : M string :=
  complete (chain_request state).

Definition generate_recommendations (state : ArticleState) : M ArticleState :=
  recs <- chain_invoke state ;;
  ret (set_recommendations state (Py.split (Py.nl +:+ Py.nl) recs)).

(** ** display_results *)

Definition results_header : string :=
  Py.nl +:+ "[bold green]おすすめの技術記事[/bold green]".

Definition rec_label (i : nat) : string :=
  Py.nl +:+ "[bold yellow]推薦 " +:+ Py.str_of_int i +:+ "[/bold yellow]".

Definition display_results (state : ArticleState) : M ArticleState :=
  console_print results_header ;;
  for_enumerate 1 (recommendations state)
    (fun i rec => console_print (rec_label i) ;; console_print rec) ;;
  ret state.

(** What [display_results] prints for a list of recommendations, the
    first of them numbered [start]. *)
Fixpoint section_lines (start : nat) (recs : list string) : list event :=
  match recs with
  | [] => []
  | rec :: recs' =>
      EvPrint (rec_label start) :: EvPrint rec :: section_lines (S start) recs'
  end.

(** ** The graph *)

Abbreviation node_fn := (ArticleState -> M ArticleState).

Record StateGraph : Type := {
  nodes : gmap string node_fn;
  edges : gmap string string;
  entry_point : option string
}.

Definition END : string := "__end__".

Definition StateGraph_new : StateGraph :=
  {| nodes := ∅; edges := ∅; entry_point := None |}.

Definition add_node (name : string) (f : node_fn) (g : StateGraph) : StateGraph :=
  {| nodes := <[name := f]> (nodes g); edges := edges g;
     entry_point := entry_point g |}.

Definition add_edge (src dst : string) (g : StateGraph) : StateGraph :=
  {| nodes := nodes g; edges := <[src := dst]> (edges g);
     entry_point := entry_point g |}.

Definition set_entry_point (name : string) (g : StateGraph) : StateGraph :=
  {| nodes := nodes g; edges := edges g; entry_point := Some name |}.

Definition build_graph : StateGraph :=
  let workflow := StateGraph_new in
  let workflow := add_node "collect_history" collect_history workflow in
  let workflow := add_node "generate_recommendations" generate_recommendations workflow in
  let workflow := add_node "display_results" display_results workflow in
  let workflow := add_edge "collect_history" "generate_recommendations" workflow in
  let workflow := add_edge "generate_recommendations" "display_results" workflow in
  let workflow := add_edge "display_results" END workflow in
  let workflow := set_entry_point "collect_history" workflow in
  workflow.

(** The runner gives up after this many node executions. *)
Definition recursion_limit : nat := 25.

(** Running a compiled graph: the node's function is applied to the state
    and the walk follows the node's edge, until [END].  The graph of
    [build_graph] has a function for every node it names and an edge out
    of each, so the two error branches are not taken there (see
    [invoke_build_graph]). *)
Fixpoint run_from (g : StateGraph) (limit : nat) (name : string)
    (state : ArticleState) : M ArticleState :=
  if String.eqb name END then ret state
  else
    match limit with
    | O => raise (Exception "Recursion limit reached")
    | S limit' =>
        match nodes g !! name with
        | None => raise (Exception ("unknown node " +:+ name))
        | Some f =>
            state' <- f state ;;
            match edges g !! name with
            | Some next => run_from g limit' next state'
            | None => ret state'
            end
        end
    end.

Definition invoke (g : StateGraph) (state : ArticleState) : M ArticleState :=
  match entry_point g with
  | Some name => run_from g recursion_limit name state
  | None => raise (Exception "no entry point")
  end.

(** ** main *)

Definition missing_key_line1 : string :=
  "[bold red]エラー: OPENAI_API_KEYが設定されていません。[/bold red]".

Definition missing_key_line2 : string :=
  "環境変数ファイル(.env)にOPENAI_API_KEYを設定してください。".

Definition error_line (msg : string) : string :=
  "[bold red]エラーが発生しました: " +:+ msg +:+ "[/bold red]".

Definition main : M unit :=
  try_except
    (key <- os_getenv "OPENAI_API_KEY" ;;
     if negb (Py.truthy key) then
       console_print missing_key_line1 ;;
       console_print missing_key_line2 ;;
       ret tt
     else
       let graph := build_graph in
       invoke graph ArticleState_new ;;
       ret tt)
    (fun msg => console_print (error_line msg)).

(** ** Sample sessions *)

(** A world with the credential set to [key] (or unset), the keyboard
    input [keys] and an endpoint that answers every request the same. *)
Definition session (key : option string) (keys : list input_event)
    (answer : string + exn) : world :=
  {| environ := match key with
                | Some k => {[ "OPENAI_API_KEY" := k ]}
                | None => ∅
                end;
     stdin := keys;
     endpoint := fun _ => answer;
     trace := [] |}.

Definition blank_line : string := Py.nl +:+ Py.nl.

(** * Properties *)

(** ** Worlds *)

Lemma log_emit e w : log e w = emit [e] w.
Proof. reflexivity. Qed.

Lemma emit_nil w : emit [] w = w.
Proof. destruct w; unfold emit; cbn. by rewrite app_nil_r. Qed.

Lemma emit_emit evs1 evs2 w : emit evs2 (emit evs1 w) = emit (evs1 ++ evs2) w.
Proof. unfold emit; cbn. by rewrite app_assoc. Qed.

Lemma set_stdin_emit pending evs w :
  emit evs (set_stdin pending w) = set_stdin pending (emit evs w).
Proof. reflexivity. Qed.

Lemma set_stdin_twice p q w : set_stdin p (set_stdin q w) = set_stdin p w.
Proof. reflexivity. Qed.

Lemma set_stdin_same w : set_stdin (stdin w) w = w.
Proof. by destruct w. Qed.


(** ** Python primitives *)

Lemma split_go_nonempty sep s : forall skip, Py.split_go sep skip s <> [].
Proof.
  induction s as [|c s IH]; intros skip; cbn [Py.split_go]; [done|].
  destruct skip as [|k]; [|apply IH].
  destruct (String.prefix sep (String c s)); [done|].
  unfold Py.push_char. destruct (Py.split_go sep 0 s); done.
Qed.






Lemma prefix_blank_line c d s t :
  String.prefix blank_line (String c (String d s)) =
  String.prefix blank_line (String c (String d t)).
Proof.
  change blank_line with (String (ascii_of_nat 10) (String (ascii_of_nat 10) "")).
  cbn [String.prefix].
  destruct (ascii_dec _ c); [|done]. destruct (ascii_dec _ d); [|done].
  by destruct s, t.
Qed.

(** A block that holds no blank line, not even with the newline that
    follows it, is the first piece of the text it starts. *)
Lemma split_blocks a : forall b,
  Py.split blank_line (a +:+ Py.nl) = [a +:+ Py.nl] ->
  Py.split blank_line (a +:+ blank_line +:+ b) = a :: Py.split blank_line b.
Proof.
  unfold Py.split.
  induction a as [|c a IH]; intros b Hblock; [by destruct b|].
  change (String c a +:+ Py.nl) with (String c (a +:+ Py.nl)) in Hblock.
  change (String c a +:+ blank_line +:+ b) with (String c (a +:+ blank_line +:+ b)).
  cbn [Py.split_go] in *.
  assert (Hpre : String.prefix blank_line (String c (a +:+ blank_line +:+ b)) =
                 String.prefix blank_line (String c (a +:+ Py.nl))).
  { destruct a as [|d a]; [reflexivity|]. cbn [String.append]. apply prefix_blank_line. }
  rewrite Hpre.
  destruct (String.prefix blank_line (String c (a +:+ Py.nl))); [discriminate Hblock|].
  rewrite IH; [reflexivity|].
  unfold Py.push_char in Hblock.
  destruct (Py.split_go blank_line 0 (a +:+ Py.nl)) as [|piece more] eqn:Hs;
    [by apply split_go_nonempty in Hs|].
  by injection Hblock as -> ->.
Qed.

Lemma split_two_blocks a b :
  Py.split blank_line (a +:+ Py.nl) = [a +:+ Py.nl] ->
  Py.split blank_line b = [b] ->
  Py.split blank_line (a +:+ blank_line +:+ b) = [a; b].
Proof. intros Ha Hb. by rewrite split_blocks, Hb. Qed.

(** ** The collection loop *)

(** One iteration, by what the prompt meets. *)
Lemma collect_loop_S n state w :
  collect_loop (S n) state w =
  match stdin w with
  | [] => (Raise EOFError, asked w)
  | Line article :: pending =>
      if String.eqb (Py.lower article) "done"
      then (Ok state, set_stdin pending (asked w))
      else collect_loop n (append_article state article)
             (set_stdin pending (asked w))
  | CtrlC :: pending => (Raise KeyboardInterrupt, set_stdin pending (asked w))
  end.
Proof.
  cbn [collect_loop]. unfold bind, Prompt_ask, asked.
  destruct (stdin w) as [|[article|] pending]; try reflexivity.
  destruct (String.eqb (Py.lower article) "done"); reflexivity.
Qed.

(** A recording iteration of the function is a step of the relation. *)
Lemma collect_step_loop n c c' :
  collect_step c c' ->
  collect_loop (S n) c.1 c.2 = collect_loop n c'.1 c'.2.
Proof.
  intros [state w article pending Hin Hne]. cbn [fst snd].
  rewrite collect_loop_S, Hin.
  apply String.eqb_neq in Hne. by rewrite Hne.
Qed.

Lemma read_articles_extend state entered article :
  read_articles (append_article state article) ++ entered =
  read_articles state ++ article :: entered.
Proof. cbn. by rewrite <- app_assoc. Qed.

(** A run over recorded lines up to a sentinel. *)
Lemma collect_loop_run entered : forall n state w sentinel pending,
  Forall (fun a => Py.lower a <> "done") entered ->
  Py.lower sentinel = "done" ->
  stdin w = (Line <$> entered) ++ Line sentinel :: pending ->
  List.length entered < n ->
  collect_loop n state w =
    (Ok {| read_articles := read_articles state ++ entered;
           recommendations := recommendations state |},
     set_stdin pending
       (emit (replicate (S (List.length entered)) (EvAsk ask_prompt)) w)).
Proof.
  induction entered as [|a entered IH]; intros n state w sentinel pending Hall Hs Hin Hn.
  - destruct n as [|n]; [cbn in Hn; lia|].
    rewrite collect_loop_S, Hin. cbn [fmap list_fmap app].
    apply String.eqb_eq in Hs. rewrite Hs.
    rewrite app_nil_r. by destruct state.
  - destruct n as [|n]; [cbn in Hn; lia|].
    apply Forall_cons in Hall as [Ha Hall].
    rewrite collect_loop_S, Hin. cbn [fmap list_fmap app].
    apply String.eqb_neq in Ha. rewrite Ha.
    rewrite (IH n _ _ sentinel pending Hall Hs); [| reflexivity | cbn in Hn; lia].
    rewrite read_articles_extend. unfold asked. rewrite log_emit.
    rewrite set_stdin_emit, set_stdin_twice, emit_emit.
    reflexivity.
Qed.

(** A run that returns has met a sentinel after recorded lines only. *)
Lemma collect_loop_returns n : forall state w state' w',
  collect_loop n state w = (Ok state', w') ->
  exists entered sentinel pending,
    stdin w = (Line <$> entered) ++ Line sentinel :: pending /\
    Forall (fun a => Py.lower a <> "done") entered /\
    Py.lower sentinel = "done" /\
    List.length entered < n.
Proof.
  induction n as [|n IH]; intros state w state' w' Hrun; [discriminate Hrun|].
  rewrite collect_loop_S in Hrun.
  destruct (stdin w) as [|[article|] pending] eqn:Hin; try discriminate Hrun.
  destruct (String.eqb (Py.lower article) "done") eqn:Hs.
  - exists [], article, pending. apply String.eqb_eq in Hs.
    repeat split; [constructor | done | cbn; lia].
  - apply IH in Hrun as (entered & sentinel & pending' & Hin' & Hall & Hd & Hlen).
    cbn [stdin set_stdin] in Hin'. subst pending.
    exists (article :: entered), sentinel, pending'.
    apply String.eqb_neq in Hs.
    repeat split; [by constructor | done | cbn; lia].
Qed.

(** The loop never uses up one more iteration than there are pending
    events: with that much fuel the result no longer depends on it. *)
Lemma collect_loop_fuel n : forall m state w,
  List.length (stdin w) < n -> List.length (stdin w) < m ->
  collect_loop n state w = collect_loop m state w.
Proof.
  induction n as [|n IH]; intros m state w Hn Hm; [lia|].
  destruct m as [|m]; [lia|].
  rewrite !collect_loop_S.
  destruct (stdin w) as [|[article|] pending] eqn:Hin; try reflexivity.
  destruct (String.eqb (Py.lower article) "done"); [reflexivity|].
  apply IH; cbn [stdin set_stdin asked log]; cbn in Hn, Hm; lia.
Qed.

Lemma collect_loop_terminates n : forall state w,
  List.length (stdin w) < n -> (collect_loop n state w).1 <> Diverge.
Proof.
  induction n as [|n IH]; intros state w Hn; [lia|].
  rewrite collect_loop_S.
  destruct (stdin w) as [|[article|] pending] eqn:Hin; try done.
  destruct (String.eqb (Py.lower article) "done"); [done|].
  apply IH. cbn [stdin set_stdin asked log]. cbn in Hn. lia.
Qed.


Lemma collect_history_unfold state w :
  collect_history state w =
  collect_loop (S (List.length (stdin w))) state (emit [EvPrint collect_banner] w).
Proof. reflexivity. Qed.

(** The steps of the loop only append to the history and leave the
    recommendations alone. *)
Lemma collect_step_invariant c c' :
  collect_step c c' ->
  recommendations c'.1 = recommendations c.1 /\
  exists article, Py.lower article <> "done" /\
    read_articles c'.1 = read_articles c.1 ++ [article].
Proof. intros [state w article pending Hin Hne]. cbn. eauto. Qed.

Lemma collect_steps_invariant c c' :
  rtc collect_step c c' ->
  recommendations c'.1 = recommendations c.1 /\
  exists added, Forall (fun a => Py.lower a <> "done") added /\
    read_articles c'.1 = read_articles c.1 ++ added.
Proof.
  induction 1 as [c|c c1 c' Hstep _ [IHr (added & IHall & IHa)]].
  - split; [done|]. exists []. by rewrite app_nil_r.
  - apply collect_step_invariant in Hstep as [Hr (article & Hne & Ha)].
    split; [congruence|]. exists (article :: added).
    split; [by constructor|]. rewrite IHa, Ha, <- app_assoc. done.
Qed.

(** The steps are the ones the function takes: a run that returns has
    gone through them. *)
Lemma collect_loop_steps entered : forall state w,
  Forall (fun a => Py.lower a <> "done") entered ->
  forall pending, stdin w = (Line <$> entered) ++ pending ->
  rtc collect_step (state, w)
    ({| read_articles := read_articles state ++ entered;
        recommendations := recommendations state |},
     set_stdin pending
       (emit (replicate (List.length entered) (EvAsk ask_prompt)) w)).
Proof.
  induction entered as [|a entered IH]; intros state w Hall pending Hin.
  - cbn in Hin. cbn [replicate List.length]. rewrite emit_nil, app_nil_r, <- Hin.
    rewrite set_stdin_same. destruct state. apply rtc_refl.
  - apply Forall_cons in Hall as [Ha Hall].
    eapply rtc_l; [by apply (collect_step_record state w a ((Line <$> entered) ++ pending))|].
    specialize (IH (append_article state a)
      (set_stdin ((Line <$> entered) ++ pending) (log (EvAsk ask_prompt) w))
      Hall pending eq_refl).
    rewrite read_articles_extend in IH. rewrite log_emit in IH.
    rewrite set_stdin_emit, set_stdin_twice, emit_emit in IH.
    exact IH.
Qed.

Lemma collect_history_run state w entered sentinel pending :
  Forall (fun a => Py.lower a <> "done") entered ->
  Py.lower sentinel = "done" ->
  stdin w = (Line <$> entered) ++ Line sentinel :: pending ->
  collect_history state w =
    (Ok {| read_articles := read_articles state ++ entered;
           recommendations := recommendations state |},
     set_stdin pending
       (emit (EvPrint collect_banner ::
              replicate (S (List.length entered)) (EvAsk ask_prompt)) w)).
Proof.
  intros Hall Hs Hin. rewrite collect_history_unfold.
  rewrite (collect_loop_run entered _ state _ sentinel pending Hall Hs);
    [by rewrite emit_emit | exact Hin |].
  rewrite Hin, length_app, length_fmap. cbn. lia.
Qed.

Lemma collect_history_returns state w state' w' :
  collect_history state w = (Ok state', w') ->
  exists entered sentinel pending,
    stdin w = (Line <$> entered) ++ Line sentinel :: pending /\
    Forall (fun a => Py.lower a <> "done") entered /\
    Py.lower sentinel = "done" /\
    state' = {| read_articles := read_articles state ++ entered;
                recommendations := recommendations state |} /\
    w' = set_stdin pending
           (emit (EvPrint collect_banner ::
                  replicate (S (List.length entered)) (EvAsk ask_prompt)) w).
Proof.
  intros Hrun. pose proof Hrun as Hrun'.
  rewrite collect_history_unfold in Hrun'.
  apply collect_loop_returns in Hrun'
    as (entered & sentinel & pending & Hin & Hall & Hs & _).
  cbn [stdin emit] in Hin.
  rewrite (collect_history_run state w entered sentinel pending Hall Hs Hin)
    in Hrun.
  injection Hrun as <- <-. by exists entered, sentinel, pending.
Qed.





(** C7: the fresh state has no recommendations; every configuration the
    collection loop reaches from it still has none, and so has the state
    [collect_history] hands on to the generation stage, which the loop
    reaches by its steps; each step of the loop appends one entry to
    [read_articles], so that earlier entries stay, in their order, as a
    prefix of the list at any later point.  The steps are the recording
    iterations of [collect_loop]. *)
Theorem session_state_invariant :
  recommendations ArticleState_new = [] /\
  (forall w c', rtc collect_step (ArticleState_new, w) c' ->
     recommendations c'.1 = []) /\
  (forall c c', collect_step c c' ->
     exists article, read_articles c'.1 = read_articles c.1 ++ [article]) /\
  (forall c c', rtc collect_step c c' ->
     read_articles c.1 `prefix_of` read_articles c'.1) /\
  (forall n c c', collect_step c c' ->
     collect_loop (S n) c.1 c.2 = collect_loop n c'.1 c'.2) /\
  (forall w state' w', collect_history ArticleState_new w = (Ok state', w') ->
     recommendations state' = [] /\
     exists w'', rtc collect_step
       (ArticleState_new, emit [EvPrint collect_banner] w) (state', w'')).
Proof.
  split; [reflexivity|]. split; [|split; [|split; [|split]]].
  - intros w c' Hsteps. by apply collect_steps_invariant in Hsteps as [-> _].
  - intros c c' Hstep.
    apply collect_step_invariant in Hstep as [_ (article & _ & Ha)]. eauto.
  - intros c c' Hsteps.
    apply collect_steps_invariant in Hsteps as [_ (added & _ & Ha)].
    by exists added.
  - intros n c c'. apply collect_step_loop.
  - intros w state' w' Hrun.
    apply collect_history_returns in Hrun
      as (entered & sentinel & pending & Hin & Hall & Hs & -> & ->).
    split; [reflexivity|]. eexists.
    apply (collect_loop_steps entered ArticleState_new _ Hall (Line sentinel :: pending)).
    exact Hin.
Qed.

Lemma session_state_invariant_witness :
  rtc collect_step
    (ArticleState_new,
     session (Some "sk") [Line "Intro to gRPC"; Line "Rust"; Line "done"] (inl ""))
    ({| read_articles := ["Intro to gRPC"; "Rust"]; recommendations := [] |},
     set_stdin [Line "done"]
       (emit [EvAsk ask_prompt; EvAsk ask_prompt]
          (session (Some "sk") [Line "Intro to gRPC"; Line "Rust"; Line "done"]
             (inl "")))) /\
  recommendations
    {| read_articles := ["Intro to gRPC"; "Rust"]; recommendations := [] |} = [] /\
  [] `prefix_of` ["Intro to gRPC"; "Rust"].
Proof.
  assert (Hsteps : rtc collect_step
    (ArticleState_new,
     session (Some "sk") [Line "Intro to gRPC"; Line "Rust"; Line "done"] (inl ""))
    ({| read_articles := ["Intro to gRPC"; "Rust"]; recommendations := [] |},
     set_stdin [Line "done"]
       (emit [EvAsk ask_prompt; EvAsk ask_prompt]
          (session (Some "sk") [Line "Intro to gRPC"; Line "Rust"; Line "done"]
             (inl ""))))).
  { apply (collect_loop_steps ["Intro to gRPC"; "Rust"] ArticleState_new);
      [repeat constructor; vm_compute; discriminate | reflexivity]. }
  split; [exact Hsteps|]. split.
  - exact (proj1 (proj2 session_state_invariant) _ _ Hsteps).
  - exact (proj1 (proj2 (proj2 (proj2 session_state_invariant))) _ _ Hsteps).
Defined.

(** ** The presenter *)

Lemma for_enumerate_sections recs : forall start w,
  for_enumerate start recs
    (fun i rec => console_print (rec_label i) ;; console_print rec) w =
  (Ok tt, emit (section_lines start recs) w).
Proof.
  induction recs as [|rec recs IH]; intros start w; cbn [for_enumerate section_lines].
  - unfold ret. by rewrite emit_nil.
  - unfold bind at 1. unfold bind at 1. unfold console_print at 1 2.
    rewrite IH, !log_emit, !emit_emit. reflexivity.
Qed.

Lemma display_results_spec state w :
  display_results state w =
  (Ok state, emit (EvPrint results_header :: section_lines 1 (recommendations state)) w).
Proof.
  unfold display_results. unfold bind at 1. unfold console_print at 1.
  unfold bind at 1. rewrite for_enumerate_sections.
  unfold ret. by rewrite log_emit, emit_emit.
Qed.





(** C6: what [display_results] prints is a function of the recommendation
    list alone: two runs on the same state, in whatever worlds, return the
    state unchanged and append the same lines; run twice in a row, it
    prints them twice. *)
Theorem display_results_deterministic (state : ArticleState) (w1 w2 : world) :
  exists lines,
    display_results state w1 = (Ok state, emit lines w1) /\
    display_results state w2 = (Ok state, emit lines w2) /\
    (state' <- display_results state ;; display_results state') w1 =
      (Ok state, emit (lines ++ lines) w1).
Proof.
  exists (EvPrint results_header :: section_lines 1 (recommendations state)).
  split; [apply display_results_spec|]. split; [apply display_results_spec|].
  unfold bind. by rewrite !display_results_spec, emit_emit.
Qed.

(** ** The generation stage *)

Lemma generate_recommendations_spec state w :
  generate_recommendations state w =
  match endpoint w (chain_request state) with
  | inl text =>
      (Ok (set_recommendations state (Py.split blank_line text)),
       log (EvRequest (chain_request state)) w)
  | inr e => (Raise e, log (EvRequest (chain_request state)) w)
  end.
Proof.
  unfold generate_recommendations, bind, chain_invoke, complete.
  by destruct (endpoint w (chain_request state)).
Qed.

(** C9: when the endpoint answers with a completion text,
    [generate_recommendations] returns a state whose [read_articles] is
    the one it was given and whose [recommendations] is the text split at
    blank lines, whatever the state held before. *)
Theorem generate_recommendations_frame (state : ArticleState) (w : world)
    (text : string) :
  endpoint w (chain_request state) = inl text ->
  exists state',
    generate_recommendations state w =
      (Ok state', log (EvRequest (chain_request state)) w) /\
    read_articles state' = read_articles state /\
    recommendations state' = Py.split (Py.nl +:+ Py.nl) text.
Proof.
  intros Hanswer. rewrite generate_recommendations_spec, Hanswer.
  by eexists.
Qed.

Lemma generate_recommendations_frame_witness :
  exists state',
    generate_recommendations
      {| read_articles := ["Intro to gRPC"; "Rust ownership"];
         recommendations := ["stale"] |}
      (session (Some "sk") [] (inl ("A" +:+ blank_line +:+ "B"))) =
      (Ok state',
       log (EvRequest (chain_request
              {| read_articles := ["Intro to gRPC"; "Rust ownership"];
                 recommendations := ["stale"] |}))
         (session (Some "sk") [] (inl ("A" +:+ blank_line +:+ "B")))) /\
    read_articles state' = ["Intro to gRPC"; "Rust ownership"] /\
    recommendations state' = ["A"; "B"].
Proof.
  apply (generate_recommendations_frame
    {| read_articles := ["Intro to gRPC"; "Rust ownership"];
       recommendations := ["stale"] |}
    (session (Some "sk") [] (inl ("A" +:+ blank_line +:+ "B")))
    ("A" +:+ blank_line +:+ "B")).
  reflexivity.
Defined.



(** ** The graph *)








(** ** main *)

Lemma main_no_key w :
  Py.truthy (environ w !! "OPENAI_API_KEY") = false ->
  main w = (Ok tt, emit [EvPrint missing_key_line1; EvPrint missing_key_line2] w).
Proof.
  intros Hkey. unfold main, try_except, bind at 1, os_getenv.
  rewrite Hkey. cbn [negb]. unfold bind, console_print, ret.
  by rewrite !log_emit, emit_emit.
Qed.


(** C1: with [OPENAI_API_KEY] unset, [main] prints its two lines about the
    missing key and returns; it reads no input, sends no request and
    raises nothing. *)
Theorem main_missing_key (w : world) :
  environ w !! "OPENAI_API_KEY" = None ->
  main w = (Ok tt, emit [EvPrint missing_key_line1; EvPrint missing_key_line2] w) /\
  requests [EvPrint missing_key_line1; EvPrint missing_key_line2] = 0 /\
  stdin (main w).2 = stdin w.
Proof.
  intros Hkey.
  assert (Hmain : main w =
    (Ok tt, emit [EvPrint missing_key_line1; EvPrint missing_key_line2] w)).
  { apply main_no_key. by rewrite Hkey. }
  by rewrite Hmain.
Qed.

Lemma main_missing_key_witness :
  main (session None [Line "Intro to gRPC"; Line "done"] (inl "A")) =
    (Ok tt,
     emit [EvPrint missing_key_line1; EvPrint missing_key_line2]
       (session None [Line "Intro to gRPC"; Line "done"] (inl "A"))) /\
  requests [EvPrint missing_key_line1; EvPrint missing_key_line2] = 0 /\
  stdin (main (session None [Line "Intro to gRPC"; Line "done"] (inl "A"))).2 =
    [Line "Intro to gRPC"; Line "done"].
Proof.
  apply (main_missing_key (session None [Line "Intro to gRPC"; Line "done"] (inl "A"))).
  reflexivity.
Defined.






(** * Further properties *)

(** ** Splitting at blank lines *)

Lemma prefix_blank_line_inv c s :
  String.prefix blank_line (String c s) = true ->
  exists s', String c s = blank_line +:+ s' /\ String.length s = S (String.length s').
Proof.
  change blank_line with (String (ascii_of_nat 10) (String (ascii_of_nat 10) "")).
  destruct s as [|d s]; cbn [String.prefix].
  - by destruct (ascii_dec _ c).
  - destruct (ascii_dec _ c) as [<-|]; [|done].
    destruct (ascii_dec _ d) as [<-|]; [|done].
    intros _. by exists s.
Qed.

Lemma prefix_blank_line_single c : String.prefix blank_line (String c "") = false.
Proof.
  change blank_line with (String (ascii_of_nat 10) (String (ascii_of_nat 10) "")).
  cbn [String.prefix]. by destruct (ascii_dec _ c).
Qed.

Lemma split_go_after_blank s :
  Py.split_go blank_line 0 (blank_line +:+ s) =
  "" :: Py.split_go blank_line 0 s.
Proof. by destruct s. Qed.

Lemma join_push_char sep c pieces :
  pieces <> [] ->
  Py.join sep (Py.push_char c pieces) = String c (Py.join sep pieces).
Proof. destruct pieces as [|piece [|next more]]; done. Qed.

Lemma join_cons sep piece pieces :
  pieces <> [] ->
  Py.join sep (piece :: pieces) = piece +:+ sep +:+ Py.join sep pieces.
Proof. by destruct pieces. Qed.

Lemma split_join_length n : forall s,
  String.length s <= n ->
  Py.join blank_line (Py.split blank_line s) = s.
Proof.
  unfold Py.split.
  induction n as [|n IH]; intros [|c s] Hlen; try done; [cbn in Hlen; lia|].
  destruct (String.prefix blank_line (String c s)) eqn:Hpre.
  - apply prefix_blank_line_inv in Hpre as (s' & Hs & Hl). rewrite Hs.
    rewrite split_go_after_blank, join_cons by apply split_go_nonempty.
    rewrite IH; [done|]. cbn in Hlen. lia.
  - cbn [Py.split_go]. rewrite Hpre.
    rewrite join_push_char by apply split_go_nonempty.
    rewrite IH; [done|]. cbn in Hlen. lia.
Qed.

(** X1: the pieces a completion is split into, joined again by blank
    lines, give the completion back: the split loses none of its text. *)
Theorem split_join_restores (text : string) :
  Py.join (Py.nl +:+ Py.nl) (Py.split (Py.nl +:+ Py.nl) text) = text.
Proof. by apply (split_join_length (String.length text)). Qed.

Lemma split_go_blank_inside x : forall y,
  2 <= List.length (Py.split_go blank_line 0 (x +:+ blank_line +:+ y)).
Proof.
  induction x as [|c x IH]; intros y.
  - change ("" +:+ blank_line +:+ y) with (blank_line +:+ y).
    rewrite split_go_after_blank.
    destruct (Py.split_go blank_line 0 y) eqn:Hs;
      [by apply split_go_nonempty in Hs | cbn; lia].
  - change (String c x +:+ blank_line +:+ y)
      with (String c (x +:+ blank_line +:+ y)).
    cbn [Py.split_go].
    destruct (String.prefix blank_line _).
    + destruct (Py.split_go blank_line _ _) eqn:Hs;
        [by apply split_go_nonempty in Hs | cbn; lia].
    + specialize (IH y). unfold Py.push_char.
      destruct (Py.split_go blank_line 0 (x +:+ blank_line +:+ y));
        cbn in *; lia.
Qed.

Lemma split_go_head c s piece more :
  Py.split_go blank_line 0 (String c s) = piece :: more ->
  piece = "" \/ exists piece', piece = String c piece'.
Proof.
  cbn [Py.split_go]. destruct (String.prefix blank_line (String c s)).
  - intros [= <- _]. by left.
  - unfold Py.push_char. destruct (Py.split_go blank_line 0 s); intros [= <- _]; eauto.
Qed.

Lemma split_pieces_whole n : forall s,
  String.length s <= n ->
  Forall (fun piece => Py.split blank_line piece = [piece]) (Py.split blank_line s).
Proof.
  unfold Py.split.
  induction n as [|n IH]; intros [|c s] Hlen;
    [by repeat constructor | cbn in Hlen; lia | by repeat constructor |].
  destruct (String.prefix blank_line (String c s)) eqn:Hpre.
  - apply prefix_blank_line_inv in Hpre as (s' & Hs & Hl). rewrite Hs.
    rewrite split_go_after_blank. constructor; [done|].
    apply IH. cbn in Hlen. lia.
  - cbn [Py.split_go]. rewrite Hpre.
    assert (Hrest : Forall (fun piece => Py.split_go blank_line 0 piece = [piece])
                      (Py.split_go blank_line 0 s)).
    { apply IH. cbn in Hlen. lia. }
    destruct (Py.split_go blank_line 0 s) as [|piece more] eqn:Hs;
      [by apply split_go_nonempty in Hs|].
    apply Forall_cons in Hrest as [Hpiece Hmore].
    cbn [Py.push_char]. constructor; [|done].
    cbn [Py.split_go].
    assert (Hhead : String.prefix blank_line (String c piece) = false).
    { destruct piece as [|d piece]; [apply prefix_blank_line_single|].
      destruct s as [|d' s]; [by inversion Hs|].
      apply split_go_head in Hs as [?|[piece' ?]]; [done|]. simplify_eq.
      by rewrite (prefix_blank_line _ _ piece' s). }
    rewrite Hhead, Hpiece. done.
Qed.

(** X2: no piece of a split completion holds a blank line: none of the
    recommendations is of the form [x], blank line, [y]. *)
Theorem split_pieces_hold_no_blank_line (text : string) :
  Forall (fun piece => forall x y, piece <> x +:+ (Py.nl +:+ Py.nl) +:+ y)
    (Py.split (Py.nl +:+ Py.nl) text).
Proof.
  eapply Forall_impl; [apply (split_pieces_whole (String.length text)); lia|].
  intros piece Hpiece x y Heq.
  pose proof (split_go_blank_inside x y) as Hlen.
  change (Py.nl +:+ Py.nl) with blank_line in Heq. rewrite <- Heq in Hlen.
  unfold Py.split in Hpiece. rewrite Hpiece in Hlen. cbn in Hlen. lia.
Qed.

(** X3: blocks joined by blank lines split into the same blocks again,
    when each block but the last, followed by a newline, splits into
    itself (it holds no blank line and does not end in a newline) and the
    last block splits into itself. *)
Theorem split_join_blocks (blocks : list string) (last : string) :
  Forall (fun b => Py.split (Py.nl +:+ Py.nl) (b +:+ Py.nl) = [b +:+ Py.nl]) blocks ->
  Py.split (Py.nl +:+ Py.nl) last = [last] ->
  Py.split (Py.nl +:+ Py.nl) (Py.join (Py.nl +:+ Py.nl) (blocks ++ [last])) =
    blocks ++ [last].
Proof.
  change (Py.nl +:+ Py.nl) with blank_line.
  intros Hblocks Hlast. induction Hblocks as [|b blocks Hb _ IH]; [exact Hlast|].
  cbn [app]. rewrite join_cons by (by destruct blocks).
  by rewrite split_blocks, IH.
Qed.

Lemma split_join_blocks_witness :
  Py.split (Py.nl +:+ Py.nl)
    (Py.join (Py.nl +:+ Py.nl)
       (["Title: Protobuf" +:+ Py.nl +:+ "Reason: wire format"; "Title: HTTP/2"] ++
        ["Title: TLS"])) =
  ["Title: Protobuf" +:+ Py.nl +:+ "Reason: wire format"; "Title: HTTP/2"] ++
  ["Title: TLS"].
Proof.
  apply (split_join_blocks
    ["Title: Protobuf" +:+ Py.nl +:+ "Reason: wire format"; "Title: HTTP/2"]
    "Title: TLS").
  - repeat constructor.
  - reflexivity.
Defined.

(** ** Runs of the collection stage that do not reach a sentinel *)








(** ** Runs that reach the generation stage *)






(** X8: a key that is set but empty counts as missing: [main] prints the
    two lines about the missing key and returns without reading input or
    sending a request. *)
Theorem main_empty_key (w : world) :
  environ w !! "OPENAI_API_KEY" = Some "" ->
  main w = (Ok tt, emit [EvPrint missing_key_line1; EvPrint missing_key_line2] w).
Proof. intros Hkey. apply main_no_key. by rewrite Hkey. Qed.

Lemma main_empty_key_witness :
  main (session (Some "") [Line "Intro to gRPC"; Line "done"] (inl "A")) =
    (Ok tt,
     emit [EvPrint missing_key_line1; EvPrint missing_key_line2]
       (session (Some "") [Line "Intro to gRPC"; Line "done"] (inl "A"))).
Proof.
  apply (main_empty_key (session (Some "") [Line "Intro to gRPC"; Line "done"] (inl "A"))).
  reflexivity.
Defined.

(** ** What the stages never do *)

Lemma collect_loop_prompts n : forall state w,
  List.length (stdin w) < n ->
  (collect_loop n state w).1 <> Diverge /\
  exists k,
    1 <= k <= S (List.length (stdin w)) /\
    trace (collect_loop n state w).2 = trace w ++ replicate k (EvAsk ask_prompt).
Proof.
  induction n as [|n IH]; intros state w Hn; [lia|].
  rewrite collect_loop_S.
  destruct (stdin w) as [|[article|] pending] eqn:Hin.
  - split; [done|]. exists 1. cbn. split; [lia|done].
  - destruct (String.eqb (Py.lower article) "done").
    + split; [done|]. exists 1. cbn. split; [lia|done].
    + destruct (IH (append_article state article) (set_stdin pending (asked w)))
        as (Hend & k & Hk & Htr);
        [cbn [stdin set_stdin asked log]; cbn in Hn; lia|].
      split; [done|]. exists (S k).
      cbn [stdin set_stdin asked log] in Hk. cbn [List.length]. split; [lia|].
      rewrite Htr. cbn [trace set_stdin asked log].
      by rewrite <- app_assoc.
  - split; [done|]. exists 1. cbn. split; [lia|done].
Qed.

Lemma collect_history_prompts state w :
  (collect_history state w).1 <> Diverge /\
  exists k,
    1 <= k <= S (List.length (stdin w)) /\
    trace (collect_history state w).2 =
      trace w ++ EvPrint collect_banner :: replicate k (EvAsk ask_prompt).
Proof.
  rewrite collect_history_unfold.
  destruct (collect_loop_prompts (S (List.length (stdin w))) state
              (emit [EvPrint collect_banner] w)) as (Hend & k & Hk & Htr);
    [cbn; lia|].
  split; [done|]. exists k. split; [exact Hk|].
  rewrite Htr. cbn [trace emit]. by rewrite <- app_assoc.
Qed.

(** X9: on every keyboard input the collection stage comes to an end,
    with a state or an exception.  All it prints is its banner, and it
    prompts at least once and at most once more than there are pending
    input events; it sends no request. *)
Theorem collect_history_ends (state : ArticleState) (w : world) :
  (collect_history state w).1 <> Diverge /\
  exists k,
    1 <= k <= S (List.length (stdin w)) /\
    trace (collect_history state w).2 =
      trace w ++ EvPrint collect_banner :: replicate k (EvAsk ask_prompt) /\
    requests (EvPrint collect_banner :: replicate k (EvAsk ask_prompt)) = 0.
Proof.
  destruct (collect_history_prompts state w) as (Hend & k & Hk & Htr).
  split; [done|]. exists k. repeat split; [lia | lia | exact Htr |].
  cbn. clear. induction k; cbn; auto.
Qed.




